(** * go-noice: transcode-profile resolution and configuration bootstrap

    A shallow embedding of [config.go] (package [main]) and the properties
    of its transcode-profile resolution ([getTranscoders],
    [removeDuplicateTranscodes]) and of its bootstrap ([NewConfig]).

    Go's [int] is taken to be 64 bits wide.  The resolution code only
    compares integers, so they are modelled as [Z]; the width shows in
    [strconv.Atoi], which fails on a value outside the [int] range.
    Go strings are byte strings: [string] with one [ascii] per byte. *)

From Stdlib Require Import ZArith Ascii String.
From Stdlib Require Import DecimalString DecimalPos DecimalN.
From stdpp Require Import gmap strings list sorting.

Local Open Scope string_scope.
Local Open Scope list_scope.
Local Open Scope Z_scope.

(** ** The Go standard library functions the file calls *)

Module Strconv.

Definition intSize : Z := 64.
Definition maxInt : Z := 2 ^ (intSize - 1) - 1.
Definition minInt : Z := - 2 ^ (intSize - 1).

Definition byteVal (c : ascii) : Z := Z.of_N (N_of_ascii c).

(** [ch -= '0'; if ch > 9 { error }] on an unsigned byte. *)
Definition isDigit (c : ascii) : bool :=
  (48 <=? byteVal c) && (byteVal c <=? 57).

(** The digit loop [n = n*10 + int(ch)], failing on the first byte that
    is no decimal digit. *)
Fixpoint parseDigits (s : string) (n : Z) : option Z :=
  match s with
  | EmptyString => Some n
  | String ch s' =>
      if isDigit ch then parseDigits s' (n * 10 + (byteVal ch - 48))
      else None
  end.

(** [strconv.Atoi]: an optional sign, then at least one decimal digit and
    nothing else; [None] stands for the [*NumError] (syntax or range). *)
Definition Atoi (s : string) : option Z :=
  match s with
  | EmptyString => None
  | String c rest =>
      let neg := Ascii.eqb c "-" in
      let digits := if neg || Ascii.eqb c "+" then rest else s in
      match digits with
      | EmptyString => None
      | _ =>
          match parseDigits digits 0 with
          | None => None
          | Some un =>
              let n := if neg then - un else un in
              if (minInt <=? n) && (n <=? maxInt) then Some n else None
          end
      end
  end.

End Strconv.

Module Strings.

(** [strings.Split(s, sep)] for a separator of one byte, the only form
    the program uses: the segments of [s] between the occurrences of
    [sep], in order.  The result has one more element than [s] has
    separators, so it is never empty. *)
Fixpoint Split (s : string) (sep : ascii) : list string :=
  match s with
  | EmptyString => [EmptyString]
  | String c s' =>
      if Ascii.eqb c sep then EmptyString :: Split s' sep
      else match Split s' sep with
           | seg :: segs => String c seg :: segs
           | [] => [String c EmptyString]
           end
  end.

End Strings.

Module Sort.

Section SliceStable.
Context {A : Type} (less : A -> A -> bool).

(** Puts [x], which stood before every element of the sorted [l], in
    front of the first element that does not have to precede it. *)
Fixpoint insertStable (x : A) (l : list A) : list A :=
  match l with
  | [] => [x]
  | y :: l' => if less y x then y :: insertStable x l' else x :: l
  end.

(** [sort.SliceStable]: sorts by [less], keeping equal elements in
    their original order. *)
Definition SliceStable (l : list A) : list A :=
  foldr insertStable [] l.
End SliceStable.

End Sort.

(** ** config.go *)

Record Config := {
  Seed : string;
  Title : string;
  Owner : string;
  Transcoders : list string
}.

Record Transcode := {
  Resolution : Z;
  Framerate : Z
}.

(** The lines [getTranscoders] prints. *)
Inductive Diagnostic :=
| SkippingInvalid (v : string)
| SkippingSourceSmaller (v : string) (sourceResolution : Z)
| LoweringFramerate (v : string) (sourceFramerate : Z)
| SkippingEqual (v : string).

Section Resolution.

(** The package-level variables holding the live source's resolution and
    framerate; they are declared outside [config.go]. *)
Variables sourceResolution sourceFramerate : Z.

(** Lines 96-103: the framerate of a token whose segments are
    [transcodeStr]; [None] is the [continue] of line 101. *)
Definition parseFramerate (transcodeStr : list string) : option Z :=
  if (length transcodeStr =? 2)%nat
     && (0 <? String.length (nth 1 transcodeStr ""))%nat
  then Strconv.Atoi (nth 1 transcodeStr "")
  else Some 30.

(** Lines 105-108. *)
Definition clampFramerate (v : string) (framerate : Z)
  : Z * list Diagnostic :=
  if framerate >? sourceFramerate
  then (sourceFramerate, [LoweringFramerate v sourceFramerate])
  else (framerate, []).

(** One iteration of the loop of [getTranscoders] on the token [v]: the
    element it appends, if any, and the lines it prints.
    [transcodeStr[0]] always exists ([Strings.Split] is never empty). *)
Definition getTranscoders_iter (v : string)
  : option Transcode * list Diagnostic :=
  let transcodeStr := Strings.Split v "p" in
  match Strconv.Atoi (hd "" transcodeStr) with
  | None => (None, [SkippingInvalid v])
  | Some resolution =>
      if sourceResolution <=? resolution
      then (None, [SkippingSourceSmaller v sourceResolution])
      else
        match parseFramerate transcodeStr with
        | None => (None, [SkippingInvalid v])
        | Some framerate =>
            let '(framerate, out) := clampFramerate v framerate in
            if (sourceResolution =? resolution)
               && (framerate =? sourceFramerate)
            then (None, out ++ [SkippingEqual v])
            else (Some {| Resolution := resolution;
                          Framerate := framerate |}, out)
        end
  end.

(** The loop: the slice [transcoders] and the standard output after the
    tokens [vs], from the state [st]. *)
Definition getTranscoders_loop (vs : list string)
    (st : list Transcode * list Diagnostic)
  : list Transcode * list Diagnostic :=
  fold_left
    (fun st v =>
       let '(o, out) := getTranscoders_iter v in
       (st.1 ++ option_list o, st.2 ++ out))
    vs st.

End Resolution.

(** The comparison given to [sort.SliceStable]. *)
Definition lessTranscode (a b : Transcode) : bool :=
  if negb (Resolution a =? Resolution b)
  then Resolution a >? Resolution b
  else Framerate a >? Framerate b.

(** The scan of [removeDuplicateTranscodes]: the state is the map [seen]
    and the slice [unique]. *)
Definition dedupStep (st : gmap Z Z * list Transcode) (transcode : Transcode)
  : gmap Z Z * list Transcode :=
  let '(seen, unique) := st in
  match seen !! Resolution transcode with
  | Some prevFramerate =>
      if Framerate transcode >? prevFramerate
      then (<[Resolution transcode := Framerate transcode]> seen,
            unique ++ [transcode])
      else (seen, unique)
  | None =>
      (<[Resolution transcode := Framerate transcode]> seen,
       unique ++ [transcode])
  end.

Definition removeDuplicateTranscodes (transcodes : list Transcode)
  : list Transcode :=
  let transcodes := Sort.SliceStable lessTranscode transcodes in
  (fold_left dedupStep transcodes (∅, [])).2.

(** [getTranscoders]: the returned slice and what was printed. *)
Definition getTranscoders (sourceResolution sourceFramerate : Z)
    (config : Config) : list Transcode * list Diagnostic :=
  let '(transcoders, out) :=
    getTranscoders_loop sourceResolution sourceFramerate
      (Transcoders config) ([], []) in
  (removeDuplicateTranscodes transcoders, out).

(** A configuration record with the transcode tokens [vs]. *)
Definition configOf (vs : list string) : Config :=
  {| Seed := ""; Title := "Unnamed Stream"; Owner := ""; Transcoders := vs |}.

Definition T (r f : Z) : Transcode := {| Resolution := r; Framerate := f |}.

(** *** The bootstrap

    The file system is a finite map from path to contents, one path per
    file.  What the operating system, [encoding/json] and the wallet
    generator decide is left open: any call may fail, and nothing is
    assumed of the encoder and the decoder.

    Two simplifications: a path stands for its file alone (a second
    spelling of the same file is another key), and a write that fails
    leaves nothing behind (the real call may leave an empty or partial
    file). *)

Inductive StatResult := StatOk | StatNotExist | StatOtherError.

Inductive Error :=
| ErrStat | ErrMarshal | ErrCreatingConfigFile | ErrOpen | ErrDecode.

Section Bootstrap.

Variable mediaMTXDefaults : string.
Variable statFails openFails writeFails : string -> bool.
Variable jsonMarshalIndent : Config -> option string.
Variable jsonDecode : string -> option Config.
(** [hex.EncodeToString(newWallet.Seed())] of this run. *)
Variable seedStr : string.

Definition osStat (fs : gmap string string) (name : string) : StatResult :=
  if statFails name then StatOtherError
  else match fs !! name with
       | Some _ => StatOk
       | None => StatNotExist
       end.

(** [os.WriteFile]: [false] is an error, the file system then unchanged. *)
Definition osWriteFile (fs : gmap string string) (name data : string)
  : bool * gmap string string :=
  if writeFails name then (false, fs) else (true, <[name := data]> fs).

(** [os.Open] followed by reading the whole file. *)
Definition osOpen (fs : gmap string string) (name : string)
  : option string :=
  if openFails name then None else fs !! name.

Definition generateMediaMTXConfig (fs : gmap string string)
  : gmap string string :=
  match osStat fs "mediamtx.yml" with
  | StatNotExist => (osWriteFile fs "mediamtx.yml" mediaMTXDefaults).2
  | _ => fs
  end.

Definition NewConfig (configFile : string) (fs : gmap string string)
  : (Config + Error) * gmap string string :=
  let fs := generateMediaMTXConfig fs in
  match osStat fs configFile with
  | StatNotExist =>
      let defaultConfig :=
        {| Seed := seedStr; Title := "Unnamed Stream";
           Owner := ""; Transcoders := [] |} in
      match jsonMarshalIndent defaultConfig with
      | None => (inr ErrMarshal, fs)
      | Some data =>
          match osWriteFile fs configFile data with
          | (false, fs) => (inr ErrCreatingConfigFile, fs)
          | (true, fs) => (inl defaultConfig, fs)
          end
      end
  | StatOtherError => (inr ErrStat, fs)
  | StatOk =>
      match osOpen fs configFile with
      | None => (inr ErrOpen, fs)
      | Some f =>
          match jsonDecode f with
          | None => (inr ErrDecode, fs)
          | Some cfg =>
              let cfg :=
                if String.eqb (Title cfg) ""
                then {| Seed := Seed cfg; Title := "Unnamed Stream";
                        Owner := Owner cfg;
                        Transcoders := Transcoders cfg |}
                else cfg in
              (inl cfg, fs)
          end
      end
  end.

End Bootstrap.

(** ** Notions the properties are stated with *)

(** The decimal rendering of a natural number. *)
Definition decimal (n : N) : string :=
  NilEmpty.string_of_uint (N.to_uint n).

(** The token ["<r>p<f>"]. *)
Definition token (r f : string) : string :=
  String.append r (String "p" f).

(** [a] stands before [b], or they are equal: resolution descending, then
    framerate descending. *)
Definition precedes (a b : Transcode) : Prop :=
  Resolution b < Resolution a
  \/ (Resolution a = Resolution b /\ Framerate b <= Framerate a).

(** The slice [transcoders] when the loop over the tokens [vs] ends. *)
Definition accepted (sourceResolution sourceFramerate : Z)
    (vs : list string) : list Transcode :=
  omap (fun v => (getTranscoders_iter sourceResolution sourceFramerate v).1)
    vs.

(** What the scan appends to [unique] on the slice [l], from [seen]. *)
Fixpoint scan (seen : gmap Z Z) (l : list Transcode) : list Transcode :=
  match l with
  | [] => []
  | t :: l =>
      match seen !! Resolution t with
      | Some prevFramerate =>
          if Framerate t >? prevFramerate
          then t :: scan (<[Resolution t := Framerate t]> seen) l
          else scan seen l
      | None => t :: scan (<[Resolution t := Framerate t]> seen) l
      end
  end.

(** Every framerate recorded in [seen] is at least the framerates still to
    come for its resolution. *)
Definition dominates (seen : gmap Z Z) (l : list Transcode) : Prop :=
  forall t prev,
    t ∈ l -> seen !! Resolution t = Some prev -> Framerate t <= prev.

(** The numbers the segments of the token [v] parse to, where they parse,
    are positive. *)
Definition parsesPositive (v : string) : Prop :=
  (forall r, Strconv.Atoi (hd "" (Strings.Split v "p")) = Some r -> 0 < r)
  /\ (forall f, parseFramerate (Strings.Split v "p") = Some f -> 0 < f).

(** A printed line that reports a skipped token. *)
Definition isSkipping (d : Diagnostic) : bool :=
  match d with
  | LoweringFramerate _ _ => false
  | _ => true
  end.

(** The step of the scan without the framerate test of line 140: an
    element is kept exactly when its resolution is not in [seen]. *)
Definition dedupStepSeen (st : gmap Z Z * list Transcode)
    (transcode : Transcode) : gmap Z Z * list Transcode :=
  let '(seen, unique) := st in
  match seen !! Resolution transcode with
  | Some _ => (seen, unique)
  | None =>
      (<[Resolution transcode := Framerate transcode]> seen,
       unique ++ [transcode])
  end.

(** [sep] does not occur in [s]. *)
Fixpoint free (sep : ascii) (s : string) : bool :=
  match s with
  | EmptyString => true
  | String c s' => negb (Ascii.eqb c sep) && free sep s'
  end.

(** ** Splitting *)

Lemma Split_nonempty s sep : Strings.Split s sep <> [].
Proof. destruct s as [|c s]; simpl; [done|]. repeat case_match; done. Qed.

Lemma Split_free s sep : free sep s = true -> Strings.Split s sep = [s].
Proof.
  induction s as [|c s IH]; simpl; [done|].
  intros [Hc Hs]%andb_prop. apply negb_true_iff in Hc.
  rewrite Hc, (IH Hs). done.
Qed.

Lemma Split_append a b sep :
  free sep a = true ->
  Strings.Split (String.append a (String sep b)) sep
  = a :: Strings.Split b sep.
Proof.
  induction a as [|c a IH]; simpl.
  - intros _. by rewrite Ascii.eqb_refl.
  - intros [Hc Ha]%andb_prop. apply negb_true_iff in Hc.
    rewrite Hc, (IH Ha). done.
Qed.

Lemma Split_token r f :
  free "p" r = true -> free "p" f = true ->
  Strings.Split (token r f) "p" = [r; f].
Proof.
  intros Hr Hf. unfold token. by rewrite Split_append, Split_free.
Qed.

(** ** Decimal renderings and [Atoi] *)

Lemma parseDigits_acc d (acc : positive) :
  Strconv.parseDigits (NilEmpty.string_of_uint d) (Z.pos acc)
  = Some (Z.pos (Pos.of_uint_acc d acc)).
Proof.
  revert acc. induction d; intros acc; simpl; [done|..];
    (etrans; [|apply IHd]); f_equal;
    unfold Strconv.byteVal; simpl; lia.
Qed.

Lemma parseDigits_uint d :
  Strconv.parseDigits (NilEmpty.string_of_uint d) 0
  = Some (Z.of_N (Pos.of_uint d)).
Proof.
  induction d; simpl; [done|done|..]; apply (parseDigits_acc d).
Qed.

Lemma free_uint d : free "p" (NilEmpty.string_of_uint d) = true.
Proof. induction d; simpl; done. Qed.

Lemma free_decimal n : free "p" (decimal n) = true.
Proof. apply free_uint. Qed.

Lemma Atoi_uint d :
  d <> Decimal.Nil ->
  Strconv.Atoi (NilEmpty.string_of_uint d)
  = if Z.of_N (Pos.of_uint d) <=? Strconv.maxInt
    then Some (Z.of_N (Pos.of_uint d)) else None.
Proof.
  intros Hd. pose proof (parseDigits_uint d) as Hp.
  assert (Hmin : (Strconv.minInt <=? Z.of_N (Pos.of_uint d)) = true).
  { apply Z.leb_le. unfold Strconv.minInt, Strconv.intSize. simpl. lia. }
  destruct d; [done|..]; unfold Strconv.Atoi;
    cbn [NilEmpty.string_of_uint] in *;
    change (Ascii.eqb _ "-") with false;
    change (Ascii.eqb _ "+") with false;
    cbn [orb]; rewrite Hp; cbv iota; rewrite Hmin; done.
Qed.

Lemma Atoi_decimal n :
  Strconv.Atoi (decimal n)
  = if Z.of_N n <=? Strconv.maxInt then Some (Z.of_N n) else None.
Proof.
  unfold decimal. rewrite Atoi_uint.
  - change (Pos.of_uint (N.to_uint n)) with (N.of_uint (N.to_uint n)).
    by rewrite DecimalN.Unsigned.of_to.
  - destruct n; [done|]. apply DecimalPos.Unsigned.to_uint_nonnil.
Qed.

Lemma decimal_nonempty n : (0 <? String.length (decimal n))%nat = true.
Proof.
  unfold decimal.
  assert (N.to_uint n <> Decimal.Nil) as Hd.
  { destruct n; [done|]. apply DecimalPos.Unsigned.to_uint_nonnil. }
  destruct (N.to_uint n); done.
Qed.

(** ** The loop of [getTranscoders] *)

Lemma getTranscoders_loop_fst sR sF vs st :
  (getTranscoders_loop sR sF vs st).1 = st.1 ++ accepted sR sF vs.
Proof.
  unfold getTranscoders_loop, accepted. revert st.
  induction vs as [|v vs IH]; intros st; simpl.
  - by rewrite app_nil_r.
  - rewrite IH. destruct (getTranscoders_iter sR sF v) as [[t|] out];
      simpl; by rewrite <- ?app_assoc.
Qed.

Lemma getTranscoders_fst sR sF config :
  (getTranscoders sR sF config).1
  = removeDuplicateTranscodes (accepted sR sF (Transcoders config)).
Proof.
  unfold getTranscoders.
  pose proof (getTranscoders_loop_fst sR sF (Transcoders config) ([], []))
    as H.
  destruct (getTranscoders_loop sR sF (Transcoders config) ([], [])).
  simpl in *. by subst.
Qed.

(** What an iteration that appends an element has gone through. *)
Lemma getTranscoders_iter_Some sR sF v t out :
  getTranscoders_iter sR sF v = (Some t, out) ->
  exists resolution framerate,
    Strconv.Atoi (hd "" (Strings.Split v "p")) = Some resolution
    /\ resolution < sR
    /\ parseFramerate (Strings.Split v "p") = Some framerate
    /\ t = T resolution (Z.min framerate sF).
Proof.
  unfold getTranscoders_iter, clampFramerate.
  destruct (Strconv.Atoi _) as [resolution|]; [|done].
  destruct (Z.leb_spec sR resolution); [done|].
  destruct (parseFramerate _) as [framerate|]; [|done].
  intros Hit. exists resolution, framerate. repeat split; [done|].
  destruct (Z.gtb_spec framerate sF); simpl in Hit;
    destruct (_ && _); inversion Hit; unfold T; f_equal; lia.
Qed.

(** Conversely, a token that parses below the source resolution is kept,
    with its framerate clamped. *)
Lemma getTranscoders_iter_keep sR sF v resolution framerate :
  Strconv.Atoi (hd "" (Strings.Split v "p")) = Some resolution ->
  resolution < sR ->
  parseFramerate (Strings.Split v "p") = Some framerate ->
  (getTranscoders_iter sR sF v).1 = Some (T resolution (Z.min framerate sF)).
Proof.
  intros Hr Hlt Hf. unfold getTranscoders_iter, clampFramerate.
  rewrite Hr, Hf.
  destruct (Z.leb_spec sR resolution); [lia|].
  destruct (Z.eqb_spec sR resolution); [lia|].
  destruct (Z.gtb_spec framerate sF); simpl; unfold T; do 2 f_equal; lia.
Qed.

Lemma elem_of_accepted sR sF vs t :
  t ∈ accepted sR sF vs <->
  exists v, v ∈ vs /\ (getTranscoders_iter sR sF v).1 = Some t.
Proof. unfold accepted. apply list_elem_of_omap. Qed.

(** ** The stable sort *)

Lemma lessTranscode_false a b : lessTranscode b a = false <-> precedes a b.
Proof.
  unfold lessTranscode, precedes.
  destruct (Z.eqb_spec (Resolution b) (Resolution a)); simpl;
    rewrite Z.gtb_ltb, Z.ltb_ge; lia.
Qed.

Lemma lessTranscode_true a b : lessTranscode a b = true -> precedes a b.
Proof.
  unfold lessTranscode, precedes.
  destruct (Z.eqb_spec (Resolution a) (Resolution b)); simpl;
    rewrite Z.gtb_ltb, Z.ltb_lt; lia.
Qed.

#[local] Instance precedes_trans : Transitive precedes.
Proof. unfold precedes. intros a b c. lia. Qed.

#[local] Instance precedes_antisymm : AntiSymm (=) precedes.
Proof.
  unfold precedes. intros [ra fa] [rb fb]; simpl. intros H1 H2.
  f_equal; lia.
Qed.

Lemma insertStable_Permutation {A} (less : A -> A -> bool) x l :
  Sort.insertStable less x l ≡ₚ x :: l.
Proof.
  induction l as [|y l IH]; simpl; [done|].
  destruct (less y x); [|done]. rewrite IH. apply Permutation_swap.
Qed.

Lemma SliceStable_Permutation {A} (less : A -> A -> bool) l :
  Sort.SliceStable less l ≡ₚ l.
Proof.
  induction l as [|x l IH]; simpl; [done|].
  rewrite insertStable_Permutation. by f_equiv.
Qed.

Lemma insertStable_Sorted x l :
  Sorted precedes l -> Sorted precedes (Sort.insertStable lessTranscode x l).
Proof.
  induction 1 as [|y l Hl IH Hhd]; simpl; [by repeat constructor|].
  destruct (lessTranscode y x) eqn:Hyx.
  - constructor; [done|].
    destruct Hhd as [|z l Hyz]; simpl.
    + constructor. by apply lessTranscode_true.
    + destruct (lessTranscode z x); constructor;
        [done | by apply lessTranscode_true].
  - constructor; [by constructor|]. constructor.
    by apply lessTranscode_false.
Qed.

Lemma SliceStable_Sorted l :
  StronglySorted precedes (Sort.SliceStable lessTranscode l).
Proof.
  apply Sorted_StronglySorted; [apply precedes_trans|].
  induction l as [|x l IH]; simpl; [constructor|].
  by apply insertStable_Sorted.
Qed.

(** The order leaves no freedom: the sorted slice is the only sorted
    arrangement of the input, whatever the sorting algorithm. *)
Lemma SliceStable_unique l k :
  k ≡ₚ l -> StronglySorted precedes k ->
  k = Sort.SliceStable lessTranscode l.
Proof.
  intros Hp Hk. apply (StronglySorted_unique precedes); [done| |].
  - apply SliceStable_Sorted.
  - by rewrite SliceStable_Permutation.
Qed.

(** ** The scan of [removeDuplicateTranscodes] *)

Lemma fold_left_dedupStep l seen unique :
  (fold_left dedupStep l (seen, unique)).2 = unique ++ scan seen l.
Proof.
  revert seen unique. induction l as [|t l IH]; intros seen unique; simpl.
  - by rewrite app_nil_r.
  - destruct (seen !! Resolution t) as [prev|];
      [destruct (Framerate t >? prev)|];
      rewrite IH, <- ?app_assoc; done.
Qed.

Lemma removeDuplicateTranscodes_scan l :
  removeDuplicateTranscodes l
  = scan ∅ (Sort.SliceStable lessTranscode l).
Proof. unfold removeDuplicateTranscodes. apply fold_left_dedupStep. Qed.

Lemma dominates_tail seen t l : dominates seen (t :: l) -> dominates seen l.
Proof. intros H u prev Hu. apply H. by right. Qed.

Lemma dominates_insert seen t l :
  StronglySorted precedes (t :: l) -> dominates seen (t :: l) ->
  dominates (<[Resolution t := Framerate t]> seen) l.
Proof.
  intros Hs Hd u prev Hu. apply StronglySorted_inv in Hs as [_ Hall].
  rewrite Forall_forall in Hall. specialize (Hall u Hu).
  destruct (decide (Resolution t = Resolution u)) as [Heq|Hne].
  - rewrite <- Heq, lookup_insert_eq. intros [= <-].
    unfold precedes in Hall. lia.
  - rewrite lookup_insert_ne by done. apply Hd. by right.
Qed.

Lemma scan_sublist seen l : scan seen l `sublist_of` l.
Proof.
  revert seen. induction l as [|t l IH]; intros seen; simpl; [done|].
  destruct (seen !! Resolution t) as [prev|];
    [destruct (Framerate t >? prev)|];
    (by apply sublist_skip) || (by apply sublist_cons).
Qed.

Section ScanSorted.

(** On a sorted slice the scan keeps exactly the first element of every
    resolution that [seen] does not hold yet. *)
Lemma scan_sorted_step seen t l :
  StronglySorted precedes (t :: l) -> dominates seen (t :: l) ->
  scan seen (t :: l)
  = match seen !! Resolution t with
    | Some _ => scan seen l
    | None => t :: scan (<[Resolution t := Framerate t]> seen) l
    end.
Proof.
  intros _ Hd. simpl. destruct (seen !! Resolution t) as [prev|] eqn:E;
    [|done].
  specialize (Hd t prev (list_elem_of_here _ _) E).
  destruct (Z.gtb_spec (Framerate t) prev); [lia|done].
Qed.

Lemma scan_sorted_fresh seen l t :
  StronglySorted precedes l -> dominates seen l ->
  t ∈ scan seen l -> seen !! Resolution t = None.
Proof.
  revert seen. induction l as [|u l IH]; intros seen Hs Hd; [by inversion 1|].
  rewrite scan_sorted_step by done.
  pose proof (dominates_tail _ _ _ Hd) as Hd'.
  pose proof (dominates_insert _ _ _ Hs Hd) as Hd''.
  pose proof (StronglySorted_inv Hs) as [Hs' _].
  destruct (seen !! Resolution u) as [prev|] eqn:E; [by apply IH|].
  intros [->|Ht]%elem_of_cons; [done|].
  apply IH in Ht; [|done..].
  apply lookup_insert_None in Ht. tauto.
Qed.

Lemma scan_sorted_strict seen l :
  StronglySorted precedes l -> dominates seen l ->
  StronglySorted (fun a b => Resolution b < Resolution a) (scan seen l).
Proof.
  revert seen. induction l as [|u l IH]; intros seen Hs Hd; [constructor|].
  rewrite scan_sorted_step by done.
  pose proof (dominates_tail _ _ _ Hd) as Hd'.
  pose proof (dominates_insert _ _ _ Hs Hd) as Hd''.
  pose proof (StronglySorted_inv Hs) as [Hs' Hall].
  destruct (seen !! Resolution u) as [prev|] eqn:E; [by apply IH|].
  constructor; [by apply IH|].
  rewrite Forall_forall in Hall |- *. intros t Ht.
  pose proof (scan_sorted_fresh _ _ _ Hs' Hd'' Ht) as Hfresh.
  apply lookup_insert_None in Hfresh as [_ Hne].
  apply (sublist_subseteq _ _ (scan_sublist _ _)) in Ht.
  specialize (Hall t Ht). unfold precedes in Hall. lia.
Qed.

Lemma scan_sorted_best seen l t :
  StronglySorted precedes l -> dominates seen l ->
  t ∈ l -> seen !! Resolution t = None ->
  exists u, u ∈ scan seen l
            /\ Resolution u = Resolution t /\ Framerate t <= Framerate u.
Proof.
  revert seen. induction l as [|u l IH]; intros seen Hs Hd; [by inversion 1|].
  rewrite scan_sorted_step by done.
  pose proof (dominates_tail _ _ _ Hd) as Hd'.
  pose proof (dominates_insert _ _ _ Hs Hd) as Hd''.
  pose proof (StronglySorted_inv Hs) as [Hs' Hall].
  rewrite Forall_forall in Hall.
  intros Ht Hnone.
  destruct (seen !! Resolution u) as [prev|] eqn:E.
  - apply elem_of_cons in Ht as [->|Ht]; [congruence|]. by apply IH.
  - destruct (decide (Resolution u = Resolution t)) as [Heq|Hne].
    + exists u. split; [by left|]. split; [done|].
      apply elem_of_cons in Ht as [->|Ht]; [lia|].
      specialize (Hall t Ht). unfold precedes in Hall. lia.
    + apply elem_of_cons in Ht as [->|Ht]; [done|].
      destruct (IH _ Hs' Hd'' Ht) as (w & Hw & Hres & Hfr).
      { by rewrite lookup_insert_ne. }
      exists w. split; [by right|done].
Qed.

End ScanSorted.

Lemma dominates_empty l : dominates ∅ l.
Proof. intros t prev _. by rewrite lookup_empty. Qed.

(** ** Deduplication *)

Lemma removeDuplicateTranscodes_sublist l :
  removeDuplicateTranscodes l
    `sublist_of` Sort.SliceStable lessTranscode l.
Proof. rewrite removeDuplicateTranscodes_scan. apply scan_sublist. Qed.

Lemma elem_of_removeDuplicateTranscodes l t :
  t ∈ removeDuplicateTranscodes l -> t ∈ l.
Proof.
  intros Ht.
  apply (sublist_subseteq _ _ (removeDuplicateTranscodes_sublist l)) in Ht.
  by rewrite SliceStable_Permutation in Ht.
Qed.

Lemma removeDuplicateTranscodes_strict l :
  StronglySorted (fun a b => Resolution b < Resolution a)
    (removeDuplicateTranscodes l).
Proof.
  rewrite removeDuplicateTranscodes_scan.
  apply scan_sorted_strict; [apply SliceStable_Sorted|apply dominates_empty].
Qed.

Lemma removeDuplicateTranscodes_best l t :
  t ∈ l ->
  exists u, u ∈ removeDuplicateTranscodes l
            /\ Resolution u = Resolution t /\ Framerate t <= Framerate u.
Proof.
  intros Ht. rewrite removeDuplicateTranscodes_scan.
  apply scan_sorted_best.
  - apply SliceStable_Sorted.
  - apply dominates_empty.
  - by rewrite SliceStable_Permutation.
  - apply lookup_empty.
Qed.

Lemma removeDuplicateTranscodes_Permutation l l' :
  l ≡ₚ l' -> removeDuplicateTranscodes l = removeDuplicateTranscodes l'.
Proof.
  intros Hp. rewrite !removeDuplicateTranscodes_scan. f_equal.
  apply SliceStable_unique; [|apply SliceStable_Sorted].
  by rewrite SliceStable_Permutation.
Qed.

(** In a slice of strictly descending resolutions an element is the only
    one of its resolution. *)
Lemma strict_filter_singleton l u :
  StronglySorted (fun a b => Resolution b < Resolution a) l ->
  u ∈ l ->
  filter (fun t => Resolution t = Resolution u) l = [u].
Proof.
  induction 1 as [|a l Hl IH Hall]; [by inversion 1|].
  rewrite Forall_forall in Hall.
  intros [->|Hu]%elem_of_cons.
  - rewrite filter_cons_True by done. f_equal.
    apply elem_of_nil_inv. intros t [Hres Ht]%list_elem_of_filter.
    specialize (Hall t Ht). lia.
  - rewrite filter_cons_False; [by apply IH|].
    specialize (Hall u Hu). lia.
Qed.

Lemma strict_NoDup l :
  StronglySorted (fun a b => Resolution b < Resolution a) l ->
  NoDup (Resolution <$> l).
Proof.
  induction 1 as [|a l Hl IH Hall]; simpl; constructor; [|done].
  rewrite Forall_forall in Hall.
  intros (t & Heq & Ht)%list_elem_of_fmap. specialize (Hall t Ht). lia.
Qed.

Lemma strict_precedes l :
  StronglySorted (fun a b => Resolution b < Resolution a) l ->
  StronglySorted precedes l.
Proof.
  induction 1 as [|a l Hl IH Hall]; constructor; [done|].
  eapply Forall_impl; [done|]. intros t Ht. by left.
Qed.

(** ** The properties of the resolution pass *)

(** C2. The tokens ["1080p30"; "720p"; "480p60"; "1080p15"] with a source
    of resolution 1920 and framerate 30 resolve to exactly
    [{1080,30}; {720,30}; {480,30}], in that order. *)
Theorem getTranscoders_end_to_end :
  (getTranscoders 1920 30
     (configOf ["1080p30"; "720p"; "480p60"; "1080p15"])).1
  = [T 1080 30; T 720 30; T 480 30].
Proof. vm_compute. reflexivity. Qed.

(** C5. Whatever the tokens and the source, the slice [getTranscoders]
    returns is sorted by resolution descending, then framerate descending,
    and no two of its entries have the same resolution: its resolutions
    are strictly descending. *)
Theorem getTranscoders_sorted sourceResolution sourceFramerate config :
  let out := (getTranscoders sourceResolution sourceFramerate config).1 in
  StronglySorted precedes out
  /\ NoDup (Resolution <$> out)
  /\ StronglySorted (fun a b => Resolution b < Resolution a) out.
Proof.
  intros out. subst out. rewrite getTranscoders_fst.
  pose proof (removeDuplicateTranscodes_strict
                (accepted sourceResolution sourceFramerate
                   (Transcoders config))) as Hs.
  auto using strict_precedes, strict_NoDup.
Qed.

(** C6. For every slice of accepted candidates, the deduplication keeps,
    for each resolution present, exactly one entry, whose framerate is the
    maximum among the candidates of that resolution; it keeps nothing
    else; and its output is the same under any reordering of the
    candidates.  In particular ["1080p60"; "1080p30"], in either order,
    with a source of resolution 1920 and framerate 60, resolve to exactly
    [{1080,60}]. *)
Theorem removeDuplicateTranscodes_best_per_resolution :
  (forall l t, t ∈ l ->
     exists m,
       filter (fun u => Resolution u = Resolution t)
         (removeDuplicateTranscodes l) = [T (Resolution t) m]
       /\ T (Resolution t) m ∈ l
       /\ forall u, u ∈ l -> Resolution u = Resolution t ->
                    Framerate u <= m)
  /\ (forall l t, t ∈ removeDuplicateTranscodes l -> t ∈ l)
  /\ (forall l l', l ≡ₚ l' ->
        removeDuplicateTranscodes l = removeDuplicateTranscodes l')
  /\ (getTranscoders 1920 60 (configOf ["1080p60"; "1080p30"])).1
     = [T 1080 60]
  /\ (getTranscoders 1920 60 (configOf ["1080p30"; "1080p60"])).1
     = [T 1080 60].
Proof.
  split; [|split; [|split; [|split]]].
  - intros l t Ht.
    destruct (removeDuplicateTranscodes_best l t Ht) as (u & Hu & Hres & Hfr).
    pose proof (strict_filter_singleton _ u
                  (removeDuplicateTranscodes_strict l) Hu) as Hone.
    exists (Framerate u). rewrite <- Hres.
    replace (T (Resolution u) (Framerate u)) with u by by destruct u.
    split; [done|]. split; [by apply elem_of_removeDuplicateTranscodes|].
    intros w Hw Hwres.
    destruct (removeDuplicateTranscodes_best l w Hw) as (u' & Hu' & Hres' & Hfr').
    assert (u' ∈ filter (fun t => Resolution t = Resolution u)
                   (removeDuplicateTranscodes l)) as Hin.
    { apply list_elem_of_filter. split; [congruence|done]. }
    rewrite Hone in Hin. apply list_elem_of_singleton in Hin. by subst.
  - apply elem_of_removeDuplicateTranscodes.
  - apply removeDuplicateTranscodes_Permutation.
  - vm_compute. reflexivity.
  - vm_compute. reflexivity.
Qed.

(** C1, which the code does not meet.  A candidate of the source's own
    resolution and a lower framerate is not accepted: the guard of line 91
    skips the token ["1920p15"] of a 1920/30 source as if the source were
    smaller, and the check of lines 110-113 is never reached with equal
    resolutions. *)
Theorem equal_resolution_lower_framerate_skipped :
  getTranscoders 1920 30 (configOf ["1920p15"])
  = ([], [SkippingSourceSmaller "1920p15" 1920]).
Proof. vm_compute. reflexivity. Qed.

(** C10. Every entry of the slice [getTranscoders] returns has a
    resolution strictly below the source resolution; a token whose first
    segment parses to the source resolution or more is skipped at line 91,
    whatever follows its first segment. *)
Theorem getTranscoders_below_source sourceResolution sourceFramerate :
  (forall config,
     Forall (fun t => Resolution t < sourceResolution)
       (getTranscoders sourceResolution sourceFramerate config).1)
  /\ (forall v resolution,
        Strconv.Atoi (hd "" (Strings.Split v "p")) = Some resolution ->
        sourceResolution <= resolution ->
        getTranscoders_iter sourceResolution sourceFramerate v
        = (None, [SkippingSourceSmaller v sourceResolution])).
Proof.
  split.
  - intros config. rewrite getTranscoders_fst. apply Forall_forall.
    intros t Ht%elem_of_removeDuplicateTranscodes.
    apply elem_of_accepted in Ht as (v & _ & Hv).
    destruct (getTranscoders_iter _ _ v) as [o out] eqn:E.
    simpl in Hv. subst o.
    apply getTranscoders_iter_Some in E as (r & f & _ & Hlt & _ & ->).
    done.
  - intros v resolution Hr Hle. unfold getTranscoders_iter.
    rewrite Hr. by destruct (Z.leb_spec sourceResolution resolution); [|lia].
Qed.

Lemma getTranscoders_below_source_witness :
  getTranscoders_iter 1920 30 "1920p15"
  = (None, [SkippingSourceSmaller "1920p15" 1920]).
Proof.
  apply (proj2 (getTranscoders_below_source 1920 30) "1920p15" 1920).
  - reflexivity.
  - lia.
Defined.

(** C8. A framerate above the source framerate is lowered to exactly the
    source framerate and the iteration goes on with the lowered value, so
    every entry of the returned slice has a framerate of at most the
    source framerate; ["720p120"] with a source of resolution 1920 and
    framerate 60 resolves to [{720,60}]. *)
Theorem getTranscoders_clamps sourceResolution sourceFramerate :
  (forall v framerate,
     sourceFramerate < framerate ->
     clampFramerate sourceFramerate v framerate
     = (sourceFramerate, [LoweringFramerate v sourceFramerate]))
  /\ (forall v resolution framerate,
        Strconv.Atoi (hd "" (Strings.Split v "p")) = Some resolution ->
        resolution < sourceResolution ->
        parseFramerate (Strings.Split v "p") = Some framerate ->
        sourceFramerate < framerate ->
        getTranscoders_iter sourceResolution sourceFramerate v
        = (Some (T resolution sourceFramerate),
           [LoweringFramerate v sourceFramerate]))
  /\ (forall config,
        Forall (fun t => Framerate t <= sourceFramerate)
          (getTranscoders sourceResolution sourceFramerate config).1)
  /\ (getTranscoders 1920 60 (configOf ["720p120"])).1 = [T 720 60].
Proof.
  split; [|split; [|split]].
  - intros v framerate Hlt. unfold clampFramerate.
    by destruct (Z.gtb_spec framerate sourceFramerate); [|lia].
  - intros v resolution framerate Hr Hlt Hf Hgt.
    unfold getTranscoders_iter, clampFramerate. rewrite Hr, Hf.
    destruct (Z.leb_spec sourceResolution resolution); [lia|].
    destruct (Z.gtb_spec framerate sourceFramerate); [|lia].
    by destruct (Z.eqb_spec sourceResolution resolution); [lia|].
  - intros config. rewrite getTranscoders_fst. apply Forall_forall.
    intros t Ht%elem_of_removeDuplicateTranscodes.
    apply elem_of_accepted in Ht as (v & _ & Hv).
    destruct (getTranscoders_iter _ _ v) as [o out] eqn:E.
    simpl in Hv. subst o.
    apply getTranscoders_iter_Some in E as (r & f & _ & _ & _ & ->).
    simpl. lia.
  - vm_compute. reflexivity.
Qed.

Lemma getTranscoders_clamps_witness :
  getTranscoders_iter 1920 60 "720p120"
  = (Some (T 720 60), [LoweringFramerate "720p120" 60]).
Proof.
  apply (proj1 (proj2 (getTranscoders_clamps 1920 60)) "720p120" 720 120).
  - reflexivity.
  - lia.
  - reflexivity.
  - lia.
Defined.

Lemma removeDuplicateTranscodes_best_per_resolution_witness :
  exists m,
    filter (fun u => Resolution u = 1080)
      (removeDuplicateTranscodes [T 1080 30; T 720 30; T 1080 60])
    = [T 1080 m]
    /\ T 1080 m ∈ [T 1080 30; T 720 30; T 1080 60]
    /\ forall u, u ∈ [T 1080 30; T 720 30; T 1080 60] ->
                 Resolution u = 1080 -> Framerate u <= m.
Proof.
  apply (proj1 removeDuplicateTranscodes_best_per_resolution
           [T 1080 30; T 720 30; T 1080 60] (T 1080 30)).
  apply list_elem_of_here.
Defined.

(** C3, as stated, fails twice.  A second segment that parses, but to
    zero, is taken as the framerate; and a second segment that does not
    parse is ignored when the token has more than two segments. *)
Lemma malformed_framerate_counterexample :
  (Strings.Split "720p0" "p" !! 1%nat = Some "0"
   /\ "0" <> ""
   /\ Strconv.Atoi "0" = Some 0
   /\ (getTranscoders 1920 30 (configOf ["720p0"])).1 = [T 720 0])
  /\ (Strings.Split "720pxp" "p" !! 1%nat = Some "x"
      /\ "x" <> ""
      /\ Strconv.Atoi "x" = None
      /\ (getTranscoders 1920 30 (configOf ["720pxp"])).1 = [T 720 30]).
Proof. repeat split; try done; vm_compute; reflexivity. Qed.

(** C3, amended. A token that splits on ['p'] into exactly two segments,
    the second of them non-empty and refused by [strconv.Atoi], is skipped
    whatever the source.  Its iteration appends nothing and prints exactly
    one line: that the stream source is smaller, when the first segment
    parses to a resolution that is not below the source resolution, and
    that the transcode value is invalid in every other case (the first
    segment does not parse, or parses below the source resolution).  The
    returned slice is the one the remaining tokens give. *)
Theorem malformed_framerate_skipped sourceResolution sourceFramerate v a b :
  Strings.Split v "p" = [a; b] ->
  b <> "" ->
  Strconv.Atoi b = None ->
  (forall resolution,
     Strconv.Atoi a = Some resolution -> sourceResolution <= resolution ->
     getTranscoders_iter sourceResolution sourceFramerate v
     = (None, [SkippingSourceSmaller v sourceResolution]))
  /\ ((forall resolution,
         Strconv.Atoi a = Some resolution -> resolution < sourceResolution) ->
      getTranscoders_iter sourceResolution sourceFramerate v
      = (None, [SkippingInvalid v]))
  /\ forall pre post,
       (getTranscoders sourceResolution sourceFramerate
          (configOf (pre ++ v :: post))).1
       = (getTranscoders sourceResolution sourceFramerate
            (configOf (pre ++ post))).1.
Proof.
  intros Hsplit Hb Hatoi.
  assert (parseFramerate (Strings.Split v "p") = None) as Hf.
  { rewrite Hsplit. unfold parseFramerate. simpl.
    destruct b; [done|]. simpl. done. }
  assert (getTranscoders_iter sourceResolution sourceFramerate v
          = (None,
             [match Strconv.Atoi a with
              | Some resolution =>
                  if sourceResolution <=? resolution
                  then SkippingSourceSmaller v sourceResolution
                  else SkippingInvalid v
              | None => SkippingInvalid v
              end])) as Hit.
  { unfold getTranscoders_iter. rewrite Hf, Hsplit. simpl.
    destruct (Strconv.Atoi a) as [resolution|]; [|done].
    by destruct (sourceResolution <=? resolution). }
  split; [|split].
  - intros resolution Ha Hle. rewrite Hit, Ha.
    by destruct (Z.leb_spec sourceResolution resolution); [|lia].
  - intros Hbelow. rewrite Hit.
    destruct (Strconv.Atoi a) as [resolution|]; [|done].
    specialize (Hbelow resolution eq_refl).
    by destruct (Z.leb_spec sourceResolution resolution); [lia|].
  - intros pre post.
    rewrite !getTranscoders_fst. simpl. f_equal. unfold accepted.
    rewrite !omap_app. f_equal. simpl. by rewrite Hit.
Qed.

Lemma malformed_framerate_skipped_witness :
  (forall resolution,
     Strconv.Atoi "720" = Some resolution -> 1920 <= resolution ->
     getTranscoders_iter 1920 30 "720pabc"
     = (None, [SkippingSourceSmaller "720pabc" 1920]))
  /\ ((forall resolution,
         Strconv.Atoi "720" = Some resolution -> resolution < 1920) ->
      getTranscoders_iter 1920 30 "720pabc"
      = (None, [SkippingInvalid "720pabc"]))
  /\ forall pre post,
       (getTranscoders 1920 30 (configOf (pre ++ "720pabc" :: post))).1
       = (getTranscoders 1920 30 (configOf (pre ++ post))).1.
Proof.
  apply (malformed_framerate_skipped 1920 30 "720pabc" "720" "abc").
  - reflexivity.
  - discriminate.
  - reflexivity.
Defined.

(** C4, as stated, fails: with a source of resolution 1920 and framerate
    30, the token ["720p0"] gives an entry of framerate 0 and ["-5p"] an
    entry of resolution -5. *)
Lemma positive_entries_counterexample :
  0 < 1920 /\ 0 < 30
  /\ (getTranscoders 1920 30 (configOf ["720p0"; "-5p"])).1
     = [T 720 0; T (-5) 30]
  /\ ~ Forall (fun t => 0 < Resolution t /\ 0 < Framerate t)
         (getTranscoders 1920 30 (configOf ["720p0"; "-5p"])).1.
Proof.
  split; [lia|]. split; [lia|]. split; [vm_compute; reflexivity|].
  intros H. change (getTranscoders _ _ _).1 with [T 720 0; T (-5) 30] in H.
  apply Forall_cons in H as [[_ H] _]. simpl in H. lia.
Qed.

(** C4, amended. When the source framerate is positive and the numbers
    the segments of every token parse to are positive, every entry of the
    returned slice has a positive resolution and a positive framerate. *)
Theorem getTranscoders_positive sourceResolution sourceFramerate config :
  0 < sourceFramerate ->
  Forall parsesPositive (Transcoders config) ->
  Forall (fun t => 0 < Resolution t /\ 0 < Framerate t)
    (getTranscoders sourceResolution sourceFramerate config).1.
Proof.
  intros HsF Hpos. rewrite getTranscoders_fst. apply Forall_forall.
  intros t Ht%elem_of_removeDuplicateTranscodes.
  apply elem_of_accepted in Ht as (v & Hv & Hit).
  rewrite Forall_forall in Hpos. destruct (Hpos v Hv) as [Hr Hf].
  destruct (getTranscoders_iter _ _ v) as [o out] eqn:E.
  simpl in Hit. subst o.
  apply getTranscoders_iter_Some in E as (r & f & Hr' & _ & Hf' & ->).
  specialize (Hr r Hr'). specialize (Hf f Hf'). simpl. lia.
Qed.

Lemma getTranscoders_positive_witness :
  Forall (fun t => 0 < Resolution t /\ 0 < Framerate t)
    (getTranscoders 1920 30 (configOf ["1080p60"; "720p"])).1.
Proof.
  apply (getTranscoders_positive 1920 30 (configOf ["1080p60"; "720p"])).
  - lia.
  - repeat constructor; vm_compute; intros n [= <-]; reflexivity.
Defined.

(** C7, as stated, fails: 9223372036854775808 is a positive integer, but
    [strconv.Atoi] refuses its decimal rendering, which is outside [int].
    As a framerate it makes the iteration skip ["720p9223372036854775808"],
    even for a source of the greatest framerate; as a resolution it makes
    the iteration skip ["9223372036854775808p"]. *)
Lemma decimal_token_counterexample :
  (token (decimal 720) (decimal (2 ^ 63)) = "720p9223372036854775808"
   /\ parseFramerate (Strings.Split "720p9223372036854775808" "p") = None
   /\ getTranscoders 1920 Strconv.maxInt
        (configOf ["720p9223372036854775808"])
      = ([], [SkippingInvalid "720p9223372036854775808"]))
  /\ (token (decimal (2 ^ 63)) "" = "9223372036854775808p"
      /\ Strconv.Atoi (hd "" (Strings.Split "9223372036854775808p" "p"))
         = None
      /\ getTranscoders Strconv.maxInt 30
           (configOf ["9223372036854775808p"])
         = ([], [SkippingInvalid "9223372036854775808p"])).
Proof. repeat split; vm_compute; reflexivity. Qed.

(** C7, amended. For natural numbers [r] and [f] of at most the greatest
    [int], the token ["<r>p<f>"] parses to the resolution [r] and the
    framerate [f], and the tokens ["<r>p"] and ["<r>"] to the resolution
    [r] and the framerate 30; when [r] is below the source resolution the
    iteration appends that candidate, its framerate lowered to the source
    framerate where it exceeds it. *)
Theorem decimal_token_parsed (r f : N) :
  Z.of_N r <= Strconv.maxInt ->
  Z.of_N f <= Strconv.maxInt ->
  (let v := token (decimal r) (decimal f) in
   Strconv.Atoi (hd "" (Strings.Split v "p")) = Some (Z.of_N r)
   /\ parseFramerate (Strings.Split v "p") = Some (Z.of_N f)
   /\ forall sourceResolution sourceFramerate,
        Z.of_N r < sourceResolution ->
        (getTranscoders_iter sourceResolution sourceFramerate v).1
        = Some (T (Z.of_N r) (Z.min (Z.of_N f) sourceFramerate)))
  /\ (forall v, v = token (decimal r) "" \/ v = decimal r ->
      Strconv.Atoi (hd "" (Strings.Split v "p")) = Some (Z.of_N r)
      /\ parseFramerate (Strings.Split v "p") = Some 30
      /\ forall sourceResolution sourceFramerate,
           Z.of_N r < sourceResolution ->
           (getTranscoders_iter sourceResolution sourceFramerate v).1
           = Some (T (Z.of_N r) (Z.min 30 sourceFramerate))).
Proof.
  intros Hr Hf.
  assert (Strconv.Atoi (decimal r) = Some (Z.of_N r)) as Ar.
  { rewrite Atoi_decimal. by destruct (Z.leb_spec (Z.of_N r) Strconv.maxInt);
      [|lia]. }
  assert (Strconv.Atoi (decimal f) = Some (Z.of_N f)) as Af.
  { rewrite Atoi_decimal. by destruct (Z.leb_spec (Z.of_N f) Strconv.maxInt);
      [|lia]. }
  split.
  - intros v. subst v.
    assert (Strings.Split (token (decimal r) (decimal f)) "p"
            = [decimal r; decimal f]) as Hs
      by (apply Split_token; apply free_decimal).
    assert (parseFramerate [decimal r; decimal f] = Some (Z.of_N f)) as Pf.
    { unfold parseFramerate. simpl. by rewrite decimal_nonempty. }
    rewrite Hs. simpl. repeat split; [done..|].
    intros sR sF Hlt. apply getTranscoders_iter_keep; rewrite ?Hs; done.
  - intros v Hv.
    assert (hd "" (Strings.Split v "p") = decimal r
            /\ parseFramerate (Strings.Split v "p") = Some 30) as [Hh Pf].
    { destruct Hv as [-> | ->].
      - unfold token. rewrite Split_append by apply free_decimal. done.
      - rewrite Split_free by apply free_decimal. done. }
    rewrite Hh. repeat split; [done..|].
    intros sR sF Hlt. apply getTranscoders_iter_keep; rewrite ?Hh; done.
Qed.

Lemma decimal_token_parsed_witness :
  Strconv.Atoi (hd "" (Strings.Split "1080p60" "p")) = Some 1080
  /\ parseFramerate (Strings.Split "1080p60" "p") = Some 60
  /\ forall sourceResolution sourceFramerate,
       1080 < sourceResolution ->
       (getTranscoders_iter sourceResolution sourceFramerate "1080p60").1
       = Some (T 1080 (Z.min 60 sourceFramerate)).
Proof.
  apply (proj1 (decimal_token_parsed 1080 60
                  ltac:(vm_compute; discriminate)
                  ltac:(vm_compute; discriminate))).
Defined.

(** ** The bootstrap *)

(** C9. [NewConfig] on a configuration file that exists leaves the file as
    it is: its stored contents are the same before and after the call,
    whatever the file holds, whatever the decoder makes of it and whichever
    operating-system call fails. *)
Theorem NewConfig_keeps_existing_file
    mediaMTXDefaults statFails openFails writeFails
    jsonMarshalIndent jsonDecode seedStr configFile
    (fs : gmap string string) data :
  fs !! configFile = Some data ->
  (NewConfig mediaMTXDefaults statFails openFails writeFails
     jsonMarshalIndent jsonDecode seedStr configFile fs).2 !! configFile
  = Some data.
Proof.
  intros Hfile.
  set (fs' := generateMediaMTXConfig mediaMTXDefaults statFails writeFails fs).
  assert (fs' !! configFile = Some data) as Hfile'.
  { subst fs'. unfold generateMediaMTXConfig, osStat, osWriteFile.
    destruct (statFails "mediamtx.yml"); [done|].
    destruct (fs !! "mediamtx.yml") eqn:E; [done|].
    destruct (writeFails "mediamtx.yml"); [done|]. simpl.
    rewrite lookup_insert_ne; [done|]. intros <-. congruence. }
  unfold NewConfig. fold fs'. unfold osStat, osOpen.
  destruct (statFails configFile); [done|]. rewrite Hfile'.
  destruct (openFails configFile); [done|].
  destruct (jsonDecode data); done.
Qed.

Lemma NewConfig_keeps_existing_file_witness :
  (NewConfig "paths:" (fun _ => false) (fun _ => false) (fun _ => false)
     (fun _ => None) (fun _ => Some (configOf ["720p"])) "00"
     "config.json" {[ "config.json" := "{}" ]}).2 !! "config.json"
  = Some "{}".
Proof.
  apply NewConfig_keeps_existing_file. reflexivity.
Defined.

(** ** Further properties of the deduplication *)

Lemma strict_resolution_inj l u w :
  StronglySorted (fun a b => Resolution b < Resolution a) l ->
  u ∈ l -> w ∈ l -> Resolution w = Resolution u -> w = u.
Proof.
  intros Hs Hu Hw Hres.
  pose proof (strict_filter_singleton l u Hs Hu) as Hone.
  assert (w ∈ filter (fun t => Resolution t = Resolution u) l) as Hin
    by (by apply list_elem_of_filter).
  rewrite Hone in Hin. by apply list_elem_of_singleton in Hin.
Qed.

(** The entries kept are the candidates that no candidate of the same
    resolution beats. *)
Lemma elem_of_removeDuplicateTranscodes_iff l t :
  t ∈ removeDuplicateTranscodes l <->
  t ∈ l /\ forall u, u ∈ l -> Resolution u = Resolution t ->
                      Framerate u <= Framerate t.
Proof.
  pose proof (removeDuplicateTranscodes_strict l) as Hs. split.
  - intros Ht. split; [by apply elem_of_removeDuplicateTranscodes|].
    intros u Hu Hres.
    destruct (removeDuplicateTranscodes_best l u Hu) as (w & Hw & Hwres & Hfr).
    assert (w = t) as -> by (apply (strict_resolution_inj _ _ _ Hs); [done..|congruence]).
    done.
  - intros [Ht Hmax].
    destruct (removeDuplicateTranscodes_best l t Ht) as (w & Hw & Hwres & Hfr).
    pose proof (elem_of_removeDuplicateTranscodes _ _ Hw) as Hwl.
    specialize (Hmax w Hwl Hwres).
    replace t with w; [done|].
    destruct w, t; simpl in *; f_equal; lia.
Qed.

Lemma removeDuplicateTranscodes_same_elements l l' :
  (forall t, t ∈ l <-> t ∈ l') ->
  removeDuplicateTranscodes l = removeDuplicateTranscodes l'.
Proof.
  intros Hsame.
  apply (StronglySorted_unique precedes).
  - apply strict_precedes, removeDuplicateTranscodes_strict.
  - apply strict_precedes, removeDuplicateTranscodes_strict.
  - apply NoDup_Permutation.
    + eapply NoDup_fmap_1, strict_NoDup, removeDuplicateTranscodes_strict.
    + eapply NoDup_fmap_1, strict_NoDup, removeDuplicateTranscodes_strict.
    + intros t. rewrite !elem_of_removeDuplicateTranscodes_iff.
      rewrite Hsame. split; intros [Ht Hmax]; (split; [done|]);
        intros u Hu; apply Hmax; by apply Hsame.
Qed.

Lemma scan_fresh seen l :
  StronglySorted (fun a b => Resolution b < Resolution a) l ->
  (forall t, t ∈ l -> seen !! Resolution t = None) ->
  scan seen l = l.
Proof.
  intros Hs. revert seen.
  induction Hs as [|t l Hl IH Hall]; intros seen Hfresh; simpl; [done|].
  rewrite (Hfresh t) by by left. f_equal. apply IH.
  rewrite Forall_forall in Hall. intros u Hu.
  apply lookup_insert_None. split; [apply Hfresh; by right|].
  specialize (Hall u Hu). lia.
Qed.

Lemma scan_SliceStable_strict l :
  StronglySorted (fun a b => Resolution b < Resolution a) l ->
  scan ∅ (Sort.SliceStable lessTranscode l) = l.
Proof.
  intros Hs.
  rewrite <- (SliceStable_unique l l) by (done || by apply strict_precedes).
  apply scan_fresh; [done|]. intros. apply lookup_empty.
Qed.

(** X1. A slice whose resolutions are strictly descending is returned as
    it is. *)
Theorem removeDuplicateTranscodes_strict_id l :
  StronglySorted (fun a b => Resolution b < Resolution a) l ->
  removeDuplicateTranscodes l = l.
Proof.
  intros Hs. rewrite removeDuplicateTranscodes_scan.
  by apply scan_SliceStable_strict.
Qed.

Lemma removeDuplicateTranscodes_strict_id_witness :
  removeDuplicateTranscodes [T 1080 30; T 720 60; T 480 30]
  = [T 1080 30; T 720 60; T 480 30].
Proof.
  apply removeDuplicateTranscodes_strict_id.
  repeat constructor; simpl; lia.
Defined.

(** X2. Deduplicating twice is deduplicating once. *)
Theorem removeDuplicateTranscodes_idempotent l :
  removeDuplicateTranscodes (removeDuplicateTranscodes l)
  = removeDuplicateTranscodes l.
Proof.
  rewrite (removeDuplicateTranscodes_scan (removeDuplicateTranscodes l)).
  apply scan_SliceStable_strict, removeDuplicateTranscodes_strict.
Qed.

(** X3. The result depends only on which candidates occur in the slice:
    their order and their repetitions make no difference. *)
Theorem removeDuplicateTranscodes_set l l' :
  (forall t, t ∈ l <-> t ∈ l') ->
  removeDuplicateTranscodes l = removeDuplicateTranscodes l'.
Proof. apply removeDuplicateTranscodes_same_elements. Qed.

Lemma removeDuplicateTranscodes_set_witness :
  removeDuplicateTranscodes [T 720 30; T 1080 60; T 720 30]
  = removeDuplicateTranscodes [T 1080 60; T 720 30].
Proof.
  apply removeDuplicateTranscodes_set.
  intros t. rewrite !elem_of_cons, !elem_of_nil. tauto.
Defined.

(** X4. The slice returned has as many entries as the input has distinct
    resolutions. *)
Theorem removeDuplicateTranscodes_length l :
  length (removeDuplicateTranscodes l)
  = size (list_to_set (Resolution <$> l) : gset Z).
Proof.
  pose proof (strict_NoDup _ (removeDuplicateTranscodes_strict l)) as Hnd.
  rewrite <- (length_fmap Resolution).
  rewrite <- (size_list_to_set (C := gset Z)) by done.
  f_equal. apply set_eq. intros r.
  rewrite !elem_of_list_to_set, !list_elem_of_fmap. split.
  - intros (t & -> & Ht). exists t.
    split; [done|]. by apply elem_of_removeDuplicateTranscodes.
  - intros (t & -> & Ht).
    destruct (removeDuplicateTranscodes_best l t Ht) as (u & Hu & Hres & _).
    by exists u.
Qed.

(** X5. On the sorted slice the framerate test of line 140 never decides:
    the scan, map [seen] included, runs as if an element were kept exactly
    when its resolution has not been seen. *)
Theorem removeDuplicateTranscodes_first_seen l :
  fold_left dedupStep (Sort.SliceStable lessTranscode l) (∅, [])
  = fold_left dedupStepSeen (Sort.SliceStable lessTranscode l) (∅, []).
Proof.
  pose proof (SliceStable_Sorted l) as Hs.
  pose proof (dominates_empty (Sort.SliceStable lessTranscode l)) as Hd.
  revert Hs Hd. generalize (Sort.SliceStable lessTranscode l).
  generalize (∅ : gmap Z Z). generalize (@nil Transcode).
  intros unique seen k. revert unique seen.
  induction k as [|t k IH]; intros unique seen Hs Hd; simpl; [done|].
  pose proof (StronglySorted_inv Hs) as [Hs' _].
  destruct (seen !! Resolution t) as [prev|] eqn:E.
  - pose proof (Hd t prev (list_elem_of_here _ _) E) as Hle.
    destruct (Z.gtb_spec (Framerate t) prev); [lia|].
    apply IH; [done|]. by eapply dominates_tail.
  - apply IH; [done|]. by apply dominates_insert.
Qed.

(** ** Further properties of [getTranscoders] *)

(** The four ways an iteration can end; the skip of lines 110-113 is not
    among them. *)
Lemma getTranscoders_iter_cases sR sF v :
  getTranscoders_iter sR sF v = (None, [SkippingInvalid v])
  \/ getTranscoders_iter sR sF v = (None, [SkippingSourceSmaller v sR])
  \/ (exists t, getTranscoders_iter sR sF v = (Some t, []))
  \/ (exists t,
        getTranscoders_iter sR sF v = (Some t, [LoweringFramerate v sF])).
Proof.
  unfold getTranscoders_iter, clampFramerate.
  destruct (Strconv.Atoi _) as [resolution|]; [|by left].
  destruct (Z.leb_spec sR resolution); [by right; left|].
  destruct (parseFramerate _) as [framerate|]; [|by left].
  destruct (Z.eqb_spec sR resolution); [lia|]. simpl.
  destruct (framerate >? sF); right; right; [right|left]; by eexists.
Qed.

Lemma getTranscoders_loop_snd sR sF vs st :
  (getTranscoders_loop sR sF vs st).2
  = st.2 ++ concat (map (fun v => (getTranscoders_iter sR sF v).2) vs).
Proof.
  unfold getTranscoders_loop. revert st.
  induction vs as [|v vs IH]; intros st; simpl.
  - by rewrite app_nil_r.
  - rewrite IH. destruct (getTranscoders_iter sR sF v) as [o out].
    simpl. by rewrite <- app_assoc.
Qed.

Lemma getTranscoders_snd sR sF config :
  (getTranscoders sR sF config).2
  = concat (map (fun v => (getTranscoders_iter sR sF v).2)
              (Transcoders config)).
Proof.
  unfold getTranscoders.
  pose proof (getTranscoders_loop_snd sR sF (Transcoders config) ([], []))
    as H.
  destruct (getTranscoders_loop sR sF (Transcoders config) ([], [])).
  simpl in *. by subst.
Qed.

Lemma removeDuplicateTranscodes_length_le l :
  (length (removeDuplicateTranscodes l) <= length l)%nat.
Proof.
  rewrite <- (Permutation_length (SliceStable_Permutation lessTranscode l)).
  apply sublist_length, removeDuplicateTranscodes_sublist.
Qed.

Lemma getTranscoders_iter_accounting sR sF vs :
  let out := concat (map (fun v => (getTranscoders_iter sR sF v).2) vs) in
  (length (accepted sR sF vs)
   + length (filter (fun d => isSkipping d = true) out) = length vs)%nat
  /\ (length out <= length vs)%nat.
Proof.
  unfold accepted. induction vs as [|v vs [IHa IHb]]; simpl; [done|].
  rewrite filter_app, !length_app.
  destruct (getTranscoders_iter_cases sR sF v)
    as [E | [E | [[t E] | [t E]]]]; rewrite E; simpl;
    change (list_omap string Transcode) with (@omap list _ string Transcode);
    lia.
Qed.

(** X6. The skip of lines 110-113 is dead: whatever the tokens and the
    source, [getTranscoders] never prints that the source resolution and
    framerate are equal. *)
Theorem getTranscoders_never_skips_equal
    sourceResolution sourceFramerate config v :
  SkippingEqual v ∉ (getTranscoders sourceResolution sourceFramerate config).2.
Proof.
  rewrite getTranscoders_snd. intros Hin.
  apply list_elem_of_In, in_concat in Hin as (out & Hout & Hin).
  apply in_map_iff in Hout as (w & <- & _).
  destruct (getTranscoders_iter_cases sourceResolution sourceFramerate w)
    as [E | [E | [[t E] | [t E]]]]; rewrite E in Hin; simpl in Hin;
    intuition discriminate.
Qed.

(** X7. No token disappears silently: when the loop ends, the elements
    appended and the skipping lines printed are together as many as the
    tokens, and at most one line was printed per token; so the slice
    returned and the skipping lines are together at most as many as the
    tokens. *)
Theorem getTranscoders_accounts_for_tokens
    sourceResolution sourceFramerate config :
  let st := getTranscoders_loop sourceResolution sourceFramerate
              (Transcoders config) ([], []) in
  let res := getTranscoders sourceResolution sourceFramerate config in
  (length st.1 + length (filter (fun d => isSkipping d = true) st.2)
   = length (Transcoders config))%nat
  /\ (length st.2 <= length (Transcoders config))%nat
  /\ (length res.1 + length (filter (fun d => isSkipping d = true) res.2)
      <= length (Transcoders config))%nat.
Proof.
  intros st res.
  assert (st.1 = accepted sourceResolution sourceFramerate
                   (Transcoders config)) as H1
    by apply getTranscoders_loop_fst.
  assert (st.2 = res.2) as H2.
  { subst st res. by rewrite getTranscoders_loop_snd, getTranscoders_snd. }
  assert (res.1 = removeDuplicateTranscodes st.1) as H3.
  { subst res. by rewrite H1, getTranscoders_fst. }
  destruct (getTranscoders_iter_accounting sourceResolution sourceFramerate
              (Transcoders config)) as [Ha Hb].
  rewrite <- H1 in Ha.
  rewrite <- (getTranscoders_snd _ _ config) in Ha, Hb.
  fold res in Ha, Hb. rewrite <- H2 in Ha, Hb.
  repeat split; [done..|].
  rewrite H3, <- H2. pose proof (removeDuplicateTranscodes_length_le st.1).
  lia.
Qed.

(** X8. The slice returned depends only on which tokens the configuration
    holds: their order and their repetitions make no difference. *)
Theorem getTranscoders_token_set
    sourceResolution sourceFramerate config config' :
  (forall v, v ∈ Transcoders config <-> v ∈ Transcoders config') ->
  (getTranscoders sourceResolution sourceFramerate config).1
  = (getTranscoders sourceResolution sourceFramerate config').1.
Proof.
  intros Hsame. rewrite !getTranscoders_fst.
  apply removeDuplicateTranscodes_same_elements. intros t.
  rewrite !elem_of_accepted. by setoid_rewrite Hsame.
Qed.

Lemma getTranscoders_token_set_witness :
  (getTranscoders 1920 30 (configOf ["720p"; "1080p30"; "720p"])).1
  = (getTranscoders 1920 30 (configOf ["1080p30"; "720p"])).1.
Proof.
  apply getTranscoders_token_set. simpl.
  intros v. rewrite !elem_of_cons, !elem_of_nil. tauto.
Defined.

(** X9. The entries returned are exactly the candidates the iterations
    append that no appended candidate of the same resolution beats in
    framerate. *)
Theorem elem_of_getTranscoders sourceResolution sourceFramerate config t :
  t ∈ (getTranscoders sourceResolution sourceFramerate config).1 <->
  (exists v, v ∈ Transcoders config
             /\ (getTranscoders_iter sourceResolution sourceFramerate v).1
                = Some t)
  /\ (forall v u, v ∈ Transcoders config ->
        (getTranscoders_iter sourceResolution sourceFramerate v).1 = Some u ->
        Resolution u = Resolution t -> Framerate u <= Framerate t).
Proof.
  rewrite getTranscoders_fst, elem_of_removeDuplicateTranscodes_iff.
  rewrite elem_of_accepted. split; intros [Ht Hmax]; (split; [done|]).
  - intros v u Hv Hu. apply Hmax, elem_of_accepted. eauto.
  - intros u (v & Hv & Hu)%elem_of_accepted. eauto.
Qed.

(** ** Edge cases of the token format *)

Lemma Split_cons_length c s sep :
  length (Strings.Split (String c s) sep)
  = if Ascii.eqb c sep then S (length (Strings.Split s sep))
    else length (Strings.Split s sep).
Proof.
  simpl. destruct (Ascii.eqb c sep); [done|].
  pose proof (Split_nonempty s sep). by destruct (Strings.Split s sep).
Qed.

Lemma Split_append_length s s' sep :
  length (Strings.Split (String.append s (String sep s')) sep)
  = (length (Strings.Split s sep) + length (Strings.Split s' sep))%nat.
Proof.
  induction s as [|c s IH].
  - change (String.append "" (String sep s')) with (String sep s').
    rewrite Split_cons_length, Ascii.eqb_refl. done.
  - change (String.append (String c s) (String sep s'))
      with (String c (String.append s (String sep s'))).
    rewrite !Split_cons_length, IH. by destruct (Ascii.eqb c sep).
Qed.

Lemma Split_length_pos s sep : (0 < length (Strings.Split s sep))%nat.
Proof.
  pose proof (Split_nonempty s sep).
  destruct (Strings.Split s sep); simpl; [done|lia].
Qed.

Lemma Atoi_minus_decimal n :
  Z.of_N n <= 2 ^ 63 ->
  Strconv.Atoi (String "-" (decimal n)) = Some (- Z.of_N n).
Proof.
  intros Hn. unfold Strconv.Atoi, decimal.
  change (Ascii.eqb "-" "-") with true. cbn [orb].
  pose proof (parseDigits_uint (N.to_uint n)) as Hp.
  change (Pos.of_uint (N.to_uint n)) with (N.of_uint (N.to_uint n)) in Hp.
  rewrite DecimalN.Unsigned.of_to in Hp.
  pose proof (decimal_nonempty n) as Hne. unfold decimal in Hne.
  destruct (NilEmpty.string_of_uint (N.to_uint n)) as [|c rest];
    [done|].
  rewrite Hp.
  assert ((Strconv.minInt <=? - Z.of_N n) && (- Z.of_N n <=? Strconv.maxInt)
          = true) as ->; [|done].
  apply andb_true_intro. rewrite !Z.leb_le.
  unfold Strconv.minInt, Strconv.maxInt, Strconv.intSize. simpl. lia.
Qed.

Lemma getTranscoders_iter_invalid sR sF v :
  Strconv.Atoi (hd "" (Strings.Split v "p")) = None ->
  getTranscoders_iter sR sF v = (None, [SkippingInvalid v]).
Proof. intros H. unfold getTranscoders_iter. by rewrite H. Qed.

(** X10. The empty token, and every token whose first byte is neither a
    decimal digit nor a sign (a token that starts with the separator
    included), is skipped as invalid, whatever the source. *)
Theorem getTranscoders_iter_bad_start
    sourceResolution sourceFramerate (c : ascii) (s : string) :
  Strconv.isDigit c = false -> c <> "-"%char -> c <> "+"%char ->
  getTranscoders_iter sourceResolution sourceFramerate ""
  = (None, [SkippingInvalid ""])
  /\ getTranscoders_iter sourceResolution sourceFramerate (String c s)
     = (None, [SkippingInvalid (String c s)]).
Proof.
  intros Hd Hminus Hplus. split; [done|].
  apply getTranscoders_iter_invalid. simpl.
  destruct (Ascii.eqb c "p"); [done|].
  assert (forall seg, Strconv.Atoi (String c seg) = None) as Hat.
  { intros seg. unfold Strconv.Atoi.
    apply Ascii.eqb_neq in Hminus, Hplus. rewrite Hminus, Hplus.
    simpl. by rewrite Hd. }
  destruct (Strings.Split s "p"); apply Hat.
Qed.

Lemma getTranscoders_iter_bad_start_witness :
  getTranscoders_iter 1920 30 "" = (None, [SkippingInvalid ""])
  /\ getTranscoders_iter 1920 30 "p30" = (None, [SkippingInvalid "p30"]).
Proof.
  apply (getTranscoders_iter_bad_start 1920 30 "p" "30").
  - reflexivity.
  - discriminate.
  - discriminate.
Defined.

(** X11. A second separator makes the framerate 30: a token ["<r>p<s>p<s'>"]
    with [r] below the source resolution is kept with the framerate 30
    (lowered to the source framerate where that is smaller), whatever the
    strings [s] and [s'] are. *)
Theorem getTranscoders_iter_second_separator
    sourceResolution sourceFramerate (r : N) (s s' : string) :
  Z.of_N r <= Strconv.maxInt ->
  Z.of_N r < sourceResolution ->
  (getTranscoders_iter sourceResolution sourceFramerate
     (token (decimal r) (String.append s (String "p" s')))).1
  = Some (T (Z.of_N r) (Z.min 30 sourceFramerate)).
Proof.
  intros Hmax Hlt.
  assert (Strings.Split
            (token (decimal r) (String.append s (String "p" s'))) "p"
          = decimal r :: Strings.Split (String.append s (String "p" s')) "p")
    as Hs by (apply Split_append, free_decimal).
  apply getTranscoders_iter_keep; [| done |]; rewrite Hs.
  - simpl. rewrite Atoi_decimal.
    by destruct (Z.leb_spec (Z.of_N r) Strconv.maxInt); [|lia].
  - unfold parseFramerate.
    assert ((length (decimal r
                     :: Strings.Split (String.append s (String "p" s')) "p")
             =? 2)%nat = false) as ->; [|done].
    apply Nat.eqb_neq. simpl. rewrite Split_append_length.
    pose proof (Split_length_pos s "p").
    pose proof (Split_length_pos s' "p"). lia.
Qed.

Lemma getTranscoders_iter_second_separator_witness :
  (getTranscoders_iter 1920 60 "720p60p").1 = Some (T 720 30).
Proof.
  apply (getTranscoders_iter_second_separator 1920 60 720 "60" "").
  - vm_compute. discriminate.
  - lia.
Defined.

(** X12. Signs pass: a token ["-<r>p-<f>"] is kept with the negative
    resolution [-r], which is below any source resolution above it, and
    with the negative framerate [-f] (or the source framerate where that
    is smaller still). *)
Theorem getTranscoders_iter_negative
    sourceResolution sourceFramerate (r f : N) :
  Z.of_N r <= 2 ^ 63 ->
  Z.of_N f <= 2 ^ 63 ->
  - Z.of_N r < sourceResolution ->
  (getTranscoders_iter sourceResolution sourceFramerate
     (token (String "-" (decimal r)) (String "-" (decimal f)))).1
  = Some (T (- Z.of_N r) (Z.min (- Z.of_N f) sourceFramerate)).
Proof.
  intros Hr Hf Hlt.
  assert (Strings.Split
            (token (String "-" (decimal r)) (String "-" (decimal f))) "p"
          = [String "-" (decimal r); String "-" (decimal f)]) as Hs.
  { apply Split_token; simpl; apply free_decimal. }
  apply getTranscoders_iter_keep; [| done |]; rewrite Hs.
  - simpl. by apply Atoi_minus_decimal.
  - unfold parseFramerate. simpl. by apply Atoi_minus_decimal.
Qed.

Lemma getTranscoders_iter_negative_witness :
  (getTranscoders_iter 1920 30 "-5p-1").1 = Some (T (-5) (-1)).
Proof.
  apply (getTranscoders_iter_negative 1920 30 5 1); lia.
Defined.

(** ** Further properties of the bootstrap *)

Section BootstrapFacts.

Context (mediaMTXDefaults : string)
        (statFails openFails writeFails : string -> bool)
        (jsonMarshalIndent : Config -> option string)
        (jsonDecode : string -> option Config)
        (seedStr : string).

Local Abbreviation generate :=
  (generateMediaMTXConfig mediaMTXDefaults statFails writeFails).

Lemma generateMediaMTXConfig_cases (fs : gmap string string) :
  generate fs = fs
  \/ (fs !! "mediamtx.yml" = None
      /\ statFails "mediamtx.yml" = false
      /\ writeFails "mediamtx.yml" = false
      /\ generate fs = <["mediamtx.yml" := mediaMTXDefaults]> fs).
Proof.
  unfold generateMediaMTXConfig, osStat, osWriteFile.
  destruct (statFails "mediamtx.yml"); [by left|].
  destruct (fs !! "mediamtx.yml") eqn:E; [by left|].
  destruct (writeFails "mediamtx.yml"); [by left|]. by right.
Qed.

Lemma generateMediaMTXConfig_subseteq (fs : gmap string string) :
  fs ⊆ generate fs.
Proof.
  destruct (generateMediaMTXConfig_cases fs) as [-> | (E & _ & _ & ->)];
    [done|]. by apply insert_subseteq.
Qed.

Lemma generateMediaMTXConfig_lookup_ne (fs : gmap string string) name :
  name <> "mediamtx.yml" -> generate fs !! name = fs !! name.
Proof.
  intros Hne.
  destruct (generateMediaMTXConfig_cases fs) as [-> | (_ & _ & _ & ->)];
    [done|]. by rewrite lookup_insert_ne.
Qed.

(** The file system after [NewConfig]: the one after
    [generateMediaMTXConfig], with or without a new configuration file. *)
Lemma NewConfig_snd_cases configFile (fs : gmap string string) :
  (NewConfig mediaMTXDefaults statFails openFails writeFails
     jsonMarshalIndent jsonDecode seedStr configFile fs).2 = generate fs
  \/ exists data,
       generate fs !! configFile = None
       /\ (NewConfig mediaMTXDefaults statFails openFails writeFails
     jsonMarshalIndent jsonDecode seedStr configFile fs).1
          = inl {| Seed := seedStr; Title := "Unnamed Stream";
                   Owner := ""; Transcoders := [] |}
       /\ (NewConfig mediaMTXDefaults statFails openFails writeFails
     jsonMarshalIndent jsonDecode seedStr configFile fs).2 = <[configFile := data]> (generate fs).
Proof.
  unfold NewConfig, osStat, osOpen, osWriteFile.
  destruct (statFails configFile); [by left|].
  destruct (generate fs !! configFile) as [f|] eqn:E.
  - destruct (openFails configFile); [by left|].
    destruct (jsonDecode f); by left.
  - destruct (jsonMarshalIndent _) as [data|]; [|by left].
    destruct (writeFails configFile); [by left|]. right. by exists data.
Qed.

Lemma NewConfig_fst_cases configFile (fs : gmap string string) cfg :
  (NewConfig mediaMTXDefaults statFails openFails writeFails
     jsonMarshalIndent jsonDecode seedStr configFile fs).1 = inl cfg ->
  (generate fs !! configFile = None
   /\ cfg = {| Seed := seedStr; Title := "Unnamed Stream";
               Owner := ""; Transcoders := [] |})
  \/ exists data loaded,
       generate fs !! configFile = Some data
       /\ statFails configFile = false
       /\ openFails configFile = false
       /\ jsonDecode data = Some loaded
       /\ ((Title loaded <> "" /\ cfg = loaded)
           \/ (Title loaded = ""
               /\ cfg = {| Seed := Seed loaded; Title := "Unnamed Stream";
                           Owner := Owner loaded;
                           Transcoders := Transcoders loaded |})).
Proof.
  unfold NewConfig, osStat, osOpen, osWriteFile.
  destruct (statFails configFile); [done|].
  destruct (generate fs !! configFile) as [f|] eqn:E.
  - destruct (openFails configFile); [done|].
    destruct (jsonDecode f) as [loaded|] eqn:D; [|done].
    intros [= <-]. right. exists f, loaded. repeat split; try done.
    destruct (String.eqb_spec (Title loaded) ""); [right|left]; done.
  - destruct (jsonMarshalIndent _) as [data|]; [|done].
    destruct (writeFails configFile); [done|]. intros [= <-]. by left.
Qed.

(** X13. A configuration [NewConfig] returns never has an empty title. *)
Theorem NewConfig_title_nonempty configFile (fs : gmap string string) cfg :
  (NewConfig mediaMTXDefaults statFails openFails writeFails
     jsonMarshalIndent jsonDecode seedStr configFile fs).1 = inl cfg -> Title cfg <> "".
Proof.
  intros [[_ ->] | (data & loaded & _ & _ & _ & _ & [[Ht ->] | [_ ->]])]
    %NewConfig_fst_cases; done.
Qed.

(** X14. [NewConfig] removes no file and overwrites none: every file
    there before the call is there after it with the same contents. *)
Theorem NewConfig_subseteq configFile (fs : gmap string string) :
  fs ⊆ (NewConfig mediaMTXDefaults statFails openFails writeFails
     jsonMarshalIndent jsonDecode seedStr configFile fs).2.
Proof.
  pose proof (generateMediaMTXConfig_subseteq fs) as Hgen.
  destruct (NewConfig_snd_cases configFile fs)
    as [-> | (data & Hnone & _ & ->)]; [done|].
  etrans; [done|]. by apply insert_subseteq.
Qed.

(** X15. On a node that is set up, [NewConfig] only reads: when
    ["mediamtx.yml"] and the configuration file both exist before the
    call, the file system after it is the file system before it, whatever
    is returned. *)
Theorem NewConfig_read_only configFile (fs : gmap string string) :
  is_Some (fs !! "mediamtx.yml") ->
  is_Some (fs !! configFile) ->
  (NewConfig mediaMTXDefaults statFails openFails writeFails
     jsonMarshalIndent jsonDecode seedStr configFile fs).2 = fs.
Proof.
  intros [defaults Hm] [data Hc].
  assert (generate fs = fs) as Hgen.
  { destruct (generateMediaMTXConfig_cases fs) as [E | (Hnone & _)];
      [done|congruence]. }
  destruct (NewConfig_snd_cases configFile fs)
    as [-> | (new & Hnone & _)]; [done|].
  rewrite Hgen in Hnone. congruence.
Qed.

(** X16. A first run that succeeds has stored the configuration: when
    no file is under the path (other than ["mediamtx.yml"]) before the
    call and [NewConfig] returns a configuration, the path holds
    afterwards the encoding of the default configuration (the fresh seed,
    the title "Unnamed Stream", no owner, no transcode token). *)
Theorem NewConfig_first_run_stores configFile (fs : gmap string string) cfg :
  configFile <> "mediamtx.yml" ->
  fs !! configFile = None ->
  (NewConfig mediaMTXDefaults statFails openFails writeFails
     jsonMarshalIndent jsonDecode seedStr configFile fs).1 = inl cfg ->
  exists data,
    jsonMarshalIndent {| Seed := seedStr; Title := "Unnamed Stream";
                         Owner := ""; Transcoders := [] |} = Some data
    /\ (NewConfig mediaMTXDefaults statFails openFails writeFails
          jsonMarshalIndent jsonDecode seedStr configFile fs).2
       !! configFile = Some data.
Proof.
  intros Hne Hnone.
  pose proof (generateMediaMTXConfig_lookup_ne fs configFile Hne) as Hgen.
  rewrite Hnone in Hgen.
  unfold NewConfig, osStat, osOpen, osWriteFile.
  destruct (statFails configFile); [done|]. rewrite Hgen.
  destruct (jsonMarshalIndent _) as [data|]; [|done].
  destruct (writeFails configFile); [done|]. intros _.
  exists data. split; [done|]. simpl. by rewrite lookup_insert_eq.
Qed.

(** X18. Loading backfills the title and nothing else: a readable
    configuration file that decodes to [loaded] is returned as it is when
    its title is not empty, and with the title "Unnamed Stream" and the
    same seed, owner and transcode tokens when it is. *)
Theorem NewConfig_load configFile (fs : gmap string string) data loaded :
  fs !! configFile = Some data ->
  statFails configFile = false ->
  openFails configFile = false ->
  jsonDecode data = Some loaded ->
  (Title loaded <> "" -> (NewConfig mediaMTXDefaults statFails openFails writeFails
     jsonMarshalIndent jsonDecode seedStr configFile fs).1 = inl loaded)
  /\ (Title loaded = "" ->
      (NewConfig mediaMTXDefaults statFails openFails writeFails
     jsonMarshalIndent jsonDecode seedStr configFile fs).1
      = inl {| Seed := Seed loaded; Title := "Unnamed Stream";
               Owner := Owner loaded; Transcoders := Transcoders loaded |}).
Proof.
  intros Hfile Hstat Hopen Hdec.
  pose proof (lookup_weaken _ _ _ _ Hfile
                (generateMediaMTXConfig_subseteq fs)) as Hgen.
  unfold NewConfig, osStat, osOpen. rewrite Hstat, Hgen, Hopen, Hdec.
  destruct (String.eqb_spec (Title loaded) ""); split; done.
Qed.

(** X19. When [NewConfig] returns a configuration, the configuration file
    exists afterwards. *)
Theorem NewConfig_success_file configFile (fs : gmap string string) cfg :
  (NewConfig mediaMTXDefaults statFails openFails writeFails
     jsonMarshalIndent jsonDecode seedStr configFile fs).1 = inl cfg ->
  is_Some ((NewConfig mediaMTXDefaults statFails openFails writeFails
     jsonMarshalIndent jsonDecode seedStr configFile fs).2 !! configFile).
Proof.
  unfold NewConfig, osStat, osOpen, osWriteFile.
  destruct (statFails configFile); [done|].
  destruct (generate fs !! configFile) as [f|] eqn:E.
  - destruct (openFails configFile); [done|].
    destruct (jsonDecode f); [|done]. intros _. simpl. by rewrite E.
  - destruct (jsonMarshalIndent _) as [data|]; [|done].
    destruct (writeFails configFile); [done|]. intros _. simpl.
    by rewrite lookup_insert_eq.
Qed.

(** X20. A bootstrap that fails before it creates the configuration file
    has written nothing: when ["mediamtx.yml"] exists before the call and
    [NewConfig] returns an error other than the one of creating the
    configuration file, the file system after the call is the file system
    before it. *)
Theorem NewConfig_error_writes_nothing
    configFile (fs : gmap string string) e :
  is_Some (fs !! "mediamtx.yml") ->
  (NewConfig mediaMTXDefaults statFails openFails writeFails
     jsonMarshalIndent jsonDecode seedStr configFile fs).1 = inr e ->
  e <> ErrCreatingConfigFile ->
  (NewConfig mediaMTXDefaults statFails openFails writeFails
     jsonMarshalIndent jsonDecode seedStr configFile fs).2 = fs.
Proof.
  intros [defaults Hm] Herr _.
  assert (generate fs = fs) as Hgen.
  { destruct (generateMediaMTXConfig_cases fs) as [E | (Hnone & _)];
      [done|congruence]. }
  destruct (NewConfig_snd_cases configFile fs)
    as [-> | (data & _ & Hok & _)]; [done|congruence].
Qed.


(** X22. On a first run, with no file under the path (other than
    ["mediamtx.yml"]), the only configuration [NewConfig] can return is
    the default one, and [getTranscoders] makes of it the empty slice,
    printing nothing, whatever the source. *)
Theorem NewConfig_first_run_no_transcoders
    configFile (fs : gmap string string) cfg :
  configFile <> "mediamtx.yml" ->
  fs !! configFile = None ->
  (NewConfig mediaMTXDefaults statFails openFails writeFails
     jsonMarshalIndent jsonDecode seedStr configFile fs).1 = inl cfg ->
  cfg = {| Seed := seedStr; Title := "Unnamed Stream";
           Owner := ""; Transcoders := [] |}
  /\ forall sourceResolution sourceFramerate,
       getTranscoders sourceResolution sourceFramerate cfg = ([], []).
Proof.
  intros Hne Hnone Hok.
  pose proof (generateMediaMTXConfig_lookup_ne fs configFile Hne) as Hgen.
  rewrite Hnone in Hgen.
  apply NewConfig_fst_cases in Hok
    as [[_ ->] | (data & loaded & Hsome & _)]; [done|congruence].
Qed.

End BootstrapFacts.
(** X17. What the first run stores, a later run loads: if the decoder of
    the later run reads the stored encoding back as the default
    configuration, that run returns the configuration of the first run,
    whatever its own seed and whichever of its other calls fail. *)
Theorem NewConfig_reload
    mediaMTXDefaults statFails openFails writeFails
    jsonMarshalIndent jsonDecode seedStr
    mediaMTXDefaults' statFails' openFails' writeFails'
    jsonMarshalIndent' jsonDecode' seedStr'
    configFile (fs : gmap string string) data :
  let defaultConfig := {| Seed := seedStr; Title := "Unnamed Stream";
                          Owner := ""; Transcoders := [] |} in
  configFile <> "mediamtx.yml" ->
  fs !! configFile = None ->
  statFails configFile = false ->
  writeFails configFile = false ->
  jsonMarshalIndent defaultConfig = Some data ->
  statFails' configFile = false ->
  openFails' configFile = false ->
  jsonDecode' data = Some defaultConfig ->
  (NewConfig mediaMTXDefaults' statFails' openFails' writeFails'
     jsonMarshalIndent' jsonDecode' seedStr' configFile
     (NewConfig mediaMTXDefaults statFails openFails writeFails
        jsonMarshalIndent jsonDecode seedStr configFile fs).2).1
  = (NewConfig mediaMTXDefaults statFails openFails writeFails
       jsonMarshalIndent jsonDecode seedStr configFile fs).1.
Proof.
  intros defaultConfig Hne Hnone Hstat Hwrite Hdata Hstat' Hopen' Hdec'.
  subst defaultConfig.
  pose proof (generateMediaMTXConfig_lookup_ne mediaMTXDefaults statFails
                writeFails fs configFile Hne) as Hgen.
  rewrite Hnone in Hgen.
  assert (NewConfig mediaMTXDefaults statFails openFails writeFails
            jsonMarshalIndent jsonDecode seedStr configFile fs
          = (inl {| Seed := seedStr; Title := "Unnamed Stream";
                    Owner := ""; Transcoders := [] |},
             <[configFile := data]>
               (generateMediaMTXConfig mediaMTXDefaults statFails
                  writeFails fs))) as ->.
  { unfold NewConfig, osStat, osWriteFile.
    by rewrite Hstat, Hgen, Hdata, Hwrite. }
  cbn [fst snd]. unfold NewConfig, osStat, osOpen.
  rewrite Hstat', Hopen'.
  rewrite (generateMediaMTXConfig_lookup_ne mediaMTXDefaults' statFails'
             writeFails' _ configFile Hne).
  by rewrite lookup_insert_eq, Hdec'.
Qed.

(** *** The properties of the bootstrap on a small file system

    A decoder that reads every file as the configuration with the tokens
    ["720p"], an encoder that writes ["{}"], and no failing call. *)

Lemma NewConfig_title_nonempty_witness :
  Title (configOf ["720p"]) <> "".
Proof.
  apply (NewConfig_title_nonempty "paths:" (fun _ => false) (fun _ => false)
           (fun _ => false) (fun _ => Some "{}")
           (fun _ => Some (configOf ["720p"])) "00"
           "config.json" {[ "config.json" := "{}" ]}).
  reflexivity.
Defined.

Lemma NewConfig_read_only_witness :
  (NewConfig "paths:" (fun _ => false) (fun _ => false) (fun _ => false)
     (fun _ => Some "{}") (fun _ => Some (configOf ["720p"])) "00"
     "config.json"
     {[ "mediamtx.yml" := "paths:"; "config.json" := "{}" ]}).2
  = {[ "mediamtx.yml" := "paths:"; "config.json" := "{}" ]}.
Proof.
  apply NewConfig_read_only; eexists; reflexivity.
Defined.

Lemma NewConfig_first_run_stores_witness :
  exists data,
    Some "{}" = Some data
    /\ (NewConfig "paths:" (fun _ => false) (fun _ => false) (fun _ => false)
          (fun _ => Some "{}") (fun _ => None) "00" "config.json" ∅).2
       !! "config.json" = Some data.
Proof.
  apply (NewConfig_first_run_stores "paths:" (fun _ => false)
           (fun _ => false) (fun _ => false) (fun _ => Some "{}")
           (fun _ => None) "00" "config.json" ∅
           {| Seed := "00"; Title := "Unnamed Stream";
              Owner := ""; Transcoders := [] |}).
  - discriminate.
  - reflexivity.
  - reflexivity.
Defined.

Lemma NewConfig_reload_witness :
  (NewConfig "paths:" (fun _ => false) (fun _ => false) (fun _ => true)
     (fun _ => None)
     (fun _ => Some {| Seed := "00"; Title := "Unnamed Stream";
                       Owner := ""; Transcoders := [] |})
     "ff" "config.json"
     (NewConfig "paths:" (fun _ => false) (fun _ => false) (fun _ => false)
        (fun _ => Some "{}") (fun _ => None) "00" "config.json" ∅).2).1
  = (NewConfig "paths:" (fun _ => false) (fun _ => false) (fun _ => false)
       (fun _ => Some "{}") (fun _ => None) "00" "config.json" ∅).1.
Proof.
  apply (NewConfig_reload _ _ _ _ _ _ _ _ _ _ _ _ _ _ _ _ "{}");
    (reflexivity || discriminate).
Defined.

Lemma NewConfig_load_witness :
  (Title (configOf ["720p"]) <> "" ->
   (NewConfig "paths:" (fun _ => false) (fun _ => false) (fun _ => false)
      (fun _ => None) (fun _ => Some (configOf ["720p"])) "00"
      "config.json" {[ "config.json" := "{}" ]}).1
   = inl (configOf ["720p"]))
  /\ (Title (configOf ["720p"]) = "" ->
      (NewConfig "paths:" (fun _ => false) (fun _ => false) (fun _ => false)
         (fun _ => None) (fun _ => Some (configOf ["720p"])) "00"
         "config.json" {[ "config.json" := "{}" ]}).1
      = inl {| Seed := Seed (configOf ["720p"]); Title := "Unnamed Stream";
               Owner := Owner (configOf ["720p"]);
               Transcoders := Transcoders (configOf ["720p"]) |}).
Proof.
  apply (NewConfig_load _ _ _ _ _ _ _ _ _ "{}"); reflexivity.
Defined.

Lemma NewConfig_success_file_witness :
  is_Some
    ((NewConfig "paths:" (fun _ => false) (fun _ => false) (fun _ => false)
        (fun _ => Some "{}") (fun _ => None) "00" "config.json" ∅).2
     !! "config.json").
Proof.
  eapply NewConfig_success_file. reflexivity.
Defined.

Lemma NewConfig_error_writes_nothing_witness :
  (NewConfig "paths:" (fun _ => false) (fun _ => false) (fun _ => false)
     (fun _ => Some "{}") (fun _ => None) "00" "config.json"
     {[ "mediamtx.yml" := "paths:"; "config.json" := "not json" ]}).2
  = {[ "mediamtx.yml" := "paths:"; "config.json" := "not json" ]}.
Proof.
  apply (NewConfig_error_writes_nothing _ _ _ _ _ _ _ _ _ ErrDecode).
  - eexists; reflexivity.
  - reflexivity.
  - discriminate.
Defined.

Lemma NewConfig_first_run_no_transcoders_witness :
  {| Seed := "00"; Title := "Unnamed Stream"; Owner := ""; Transcoders := [] |}
  = {| Seed := "00"; Title := "Unnamed Stream"; Owner := "";
       Transcoders := [] |}
  /\ forall sourceResolution sourceFramerate,
       getTranscoders sourceResolution sourceFramerate
         {| Seed := "00"; Title := "Unnamed Stream"; Owner := "";
            Transcoders := [] |}
       = ([], []).
Proof.
  apply (NewConfig_first_run_no_transcoders "paths:" (fun _ => false)
           (fun _ => false) (fun _ => false) (fun _ => Some "{}")
           (fun _ => None) "00" "config.json" ∅).
  - discriminate.
  - reflexivity.
  - reflexivity.
Defined.
